(** * intelliparse.types: the document model and its composition operators

    A shallow embedding of [src/intelliparse/types.py]: the [Image],
    [PageItem], [SectionContent] and [ParsedFile] structs, the section merge
    operator [__add__] and [get_id], the file merges [merge_all],
    [from_sections] and [from_parsed_files], the two derived views [md] and
    [llm_described_text], and the trace parameters of [get_schema_async].

    Python values are modelled as follows.
    - [str] is [string]; [+] on strings is [String.append]; [sep.join(l)] is
      [str_join sep l].
    - [int] is [Z] (Python integers are unbounded).
    - [float] is [spec_float], the Standard Library's model of IEEE 754
      values (signed zeros, infinities, NaN and finite numbers).
    - [bytes] is [list Byte.byte].
    - [Optional[T]] is [option T], [None] being [None].
    - [Sequence[T]] is [list T]; [list(chain(a, b, ...))] is [chain] applied
      to the list of its arguments.
    - a frozen [msgspec.Struct] is a record; its [==] is structural, and is
      modelled by Leibniz equality. *)

From Stdlib Require Import Floats.SpecFloat.
From stdpp Require Import base option list strings gmap pretty.

Local Open Scope Z_scope.

(** ** Python helpers *)

(** The line feed, written [\n] in the source. *)
Definition LF : string := String (Ascii.ascii_of_nat 10) EmptyString.

(** [x or ""] for [x : Optional[str]]: the left operand when it is truthy
    (a non-empty string), the right operand otherwise. *)
Definition or_empty (x : option string) : string :=
  match x with
  | Some s => if String.eqb s "" then "" else s
  | None => ""
  end.

(** [sep.join(l)]. *)
Fixpoint str_join (sep : string) (l : list string) : string :=
  match l with
  | [] => ""
  | [s] => s
  | s :: rest => s +:+ sep +:+ str_join sep rest
  end.

(** [str(x)] as an f-string replacement field renders it, for
    [x : Optional[str]]. *)
Definition format_opt_str (x : option string) : string :=
  match x with
  | Some s => s
  | None => "None"
  end.

(** [str(n)] for a non-negative [int]: its decimal numeral. *)
Definition format_nat (n : nat) : string := pretty n.

(** [enumerate(l)], counting from [start]. *)
Fixpoint enumerate_from {A} (start : nat) (l : list A) : list (nat * A) :=
  match l with
  | [] => []
  | x :: rest => (start, x) :: enumerate_from (S start) rest
  end.

Definition enumerate {A} (l : list A) : list (nat * A) := enumerate_from 0 l.

(** [list(itertools.chain( *iterables))]: the elements of the first iterable,
    then those of the second, and so on. *)
Fixpoint chain {A} (iterables : list (list A)) : list A :=
  match iterables with
  | [] => []
  | it :: rest => it ++ chain rest
  end.

(** ** The structs *)

Definition pyfloat := spec_float.

(** [class Image]. No field carries a [msgspec.Meta] constraint. *)
Record Image := mkImage {
  contents : list Byte.byte;
  ocr_text : option string;
  height : option pyfloat;
  width : option pyfloat;
  image_name : option string;
  alt : option string
}.

(** [class PageItem] and its three subclasses.  [md] is the field of the base
    class; every constructor carries it first. *)
Inductive PageItem :=
| TextPageItem (md : string) (text : string)
| HeadingPageItem (md : string) (heading : string) (lvl : Z)
| TablePageItem (md : string) (rows : list (list string)) (csv : string)
    (is_perfect_table : bool).

(** The [tag=] of each subclass, stored under [tag_field="type"]. *)
Definition tag_field : string := "type".

Definition item_tag (it : PageItem) : string :=
  match it with
  | TextPageItem _ _ => "text"
  | HeadingPageItem _ _ _ => "heading"
  | TablePageItem _ _ _ _ => "table"
  end.

Definition item_md (it : PageItem) : string :=
  match it with
  | TextPageItem m _ => m
  | HeadingPageItem m _ _ => m
  | TablePageItem m _ _ _ => m
  end.

(** [class SectionContent]. *)
Record SectionContent := mkSection {
  number : Z;
  text : string;
  md : option string;
  images : list Image;
  items : list PageItem
}.

(** [class ParsedFile]. *)
Record ParsedFile := mkParsedFile {
  name : string;
  sections : list SectionContent
}.

(** ** Operations *)

(** [SectionContent.get_id]. *)
Definition get_id (s : SectionContent) : string := "page_" +:+ pretty (number s).

(** [SectionContent.__add__]. *)
Definition add (self other : SectionContent) : SectionContent :=
  {| number := number self;
     text := text self +:+ text other;
     md := Some (or_empty (md self) +:+ or_empty (md other));
     images := chain [images self; images other];
     items := chain [items self; items other] |}.

(** [ParsedFile.llm_described_text], and the list comprehension inside it. *)
Definition section_tags (self : ParsedFile) : list string :=
  map (fun '(num, section) =>
         "<section_" +:+ format_nat num +:+ "> " +:+ format_opt_str (md section)
           +:+ " </section_" +:+ format_nat num +:+ ">")
      (enumerate (sections self)).

Definition llm_described_text (self : ParsedFile) : string :=
  let sections := str_join " " (section_tags self) in
  "<file>" +:+ LF +:+ LF +:+ "**name:** " +:+ name self +:+ " " +:+ LF
    +:+ "**sections:** " +:+ sections +:+ LF +:+ LF +:+ "</file>".

(** [ParsedFile.merge_all]. *)
Definition merge_all (self : ParsedFile) (others : list ParsedFile) : ParsedFile :=
  {| name := name self;
     sections := chain (sections self :: map sections others) |}.


(** [ParsedFile.from_parsed_files]. *)
Definition from_parsed_files (files : list ParsedFile) : ParsedFile :=
  {| name := "MergedFile";
     sections := chain (map sections files) |}.

(** [ParsedFile.md]. *)
Definition file_md (self : ParsedFile) : string :=
  str_join LF (map (fun sec => or_empty (md sec)) (sections self)).

(** ** The dimension predicate on images *)

(** [x >= 0] on floats: false on NaN, true on both zeros. *)
Definition float_nonneg (x : pyfloat) : bool := SFleb (S754_zero false) x.

(** "if height is present then height >= 0, and if width is present then
    width >= 0". *)
Definition dims_ok (img : Image) : bool :=
  from_option float_nonneg true (height img)
  && from_option float_nonneg true (width img).

Definition section_dims_ok (s : SectionContent) : Prop :=
  Forall (fun img => dims_ok img = true) (images s).

Definition file_dims_ok (f : ParsedFile) : Prop :=
  Forall section_dims_ok (sections f).

(** The float [-1.0] in binary64: sign bit set, mantissa [2^52], exponent
    [-52]. *)
Definition minus_one : pyfloat := S754_finite true 4503599627370496 (-52).

(** [Image(contents=b"", height=-1.0)]. *)
Definition negative_height_image : Image :=
  {| contents := []; ocr_text := None; height := Some minus_one;
     width := None; image_name := None; alt := None |}.

(** ** The wire form of a page item *)

(** The tree of builtin values a struct is written to and read from: the
    JSON data model, an object being a finite map from keys to values. *)
#[local] Unset Elimination Schemes.
Inductive value :=
| VNull
| VBool (b : bool)
| VInt (z : Z)
| VFloat (f : pyfloat)
| VStr (s : string)
| VList (l : list value)
| VObj (o : gmap string value).
#[local] Set Elimination Schemes.

Inductive DecodeError :=
| MissingField (field : string)
| WrongType (expected : string) (path : string)
| InvalidTag (got : value).

Inductive result (A : Type) :=
| Ok (a : A)
| Err (e : DecodeError).
Arguments Ok {A} a.
Arguments Err {A} e.

Definition bind {A B} (r : result A) (k : A -> result B) : result B :=
  match r with
  | Ok a => k a
  | Err e => Err e
  end.

Notation "x <- r ;; k" := (bind r (fun x => k))
  (at level 100, r at next level, right associativity, only parsing).

Definition as_str (path : string) (v : value) : result string :=
  match v with
  | VStr s => Ok s
  | _ => Err (WrongType "str" path)
  end.

Definition as_int (path : string) (v : value) : result Z :=
  match v with
  | VInt z => Ok z
  | _ => Err (WrongType "int" path)
  end.

Definition as_bool (path : string) (v : value) : result bool :=
  match v with
  | VBool b => Ok b
  | _ => Err (WrongType "bool" path)
  end.

Fixpoint traverse {A} (elem : value -> result A) (l : list value) : result (list A) :=
  match l with
  | [] => Ok []
  | v :: rest =>
      a <- elem v ;;
      more <- traverse elem rest ;;
      Ok (a :: more)
  end.

Definition as_list {A} (path : string) (elem : value -> result A) (v : value)
  : result (list A) :=
  match v with
  | VList l => traverse elem l
  | _ => Err (WrongType "array" path)
  end.

(** A field without a default: absent from the object is an error. *)
Definition required {A} (o : gmap string value) (field : string)
    (conv : string -> value -> result A) : result A :=
  match o !! field with
  | Some v => conv field v
  | None => Err (MissingField field)
  end.

(** A field with a default: absent from the object yields the default. *)
Definition optional {A} (o : gmap string value) (field : string)
    (conv : string -> value -> result A) (default : A) : result A :=
  match o !! field with
  | Some v => conv field v
  | None => Ok default
  end.

(** Modelled from the spec: the encoder and the decoder are not part of
    [types.py]; the source only declares, per class, the tag field
    ([tag_field="type"]), the tag literal ([tag="text"], ["heading"],
    ["table"]), the field names with their types, and the default of
    [is_perfect_table].  [encode_item] writes the discriminator alongside the
    fields; [decode_item] reads the discriminator to select the variant and fails
    with a decoding error on any other discriminator. *)
Definition encode_item (it : PageItem) : value :=
  match it with
  | TextPageItem m t =>
      VObj (list_to_map
        [(tag_field, VStr "text"); ("md", VStr m); ("text", VStr t)])
  | HeadingPageItem m h l =>
      VObj (list_to_map
        [(tag_field, VStr "heading"); ("md", VStr m); ("heading", VStr h);
         ("lvl", VInt l)])
  | TablePageItem m r c p =>
      VObj (list_to_map
        [(tag_field, VStr "table"); ("md", VStr m);
         ("rows", VList (map (fun row => VList (map VStr row)) r));
         ("csv", VStr c); ("is_perfect_table", VBool p)])
  end.

(** Modelled from the spec: the decoder is not part of [types.py]; see
    [encode_item]. *)
Definition decode_item (v : value) : result PageItem :=
  match v with
  | VObj o =>
      match o !! tag_field with
      | None => Err (MissingField tag_field)
      | Some (VStr tag) =>
          if String.eqb tag "text" then
            m <- required o "md" as_str ;;
            t <- required o "text" as_str ;;
            Ok (TextPageItem m t)
          else if String.eqb tag "heading" then
            m <- required o "md" as_str ;;
            h <- required o "heading" as_str ;;
            l <- required o "lvl" as_int ;;
            Ok (HeadingPageItem m h l)
          else if String.eqb tag "table" then
            m <- required o "md" as_str ;;
            r <- required o "rows"
                   (fun p => as_list p (as_list p (as_str p))) ;;
            c <- required o "csv" as_str ;;
            p <- optional o "is_perfect_table" as_bool false ;;
            Ok (TablePageItem m r c p)
          else Err (InvalidTag (VStr tag))
      | Some other => Err (InvalidTag other)
      end
  | _ => Err (WrongType "object" "$")
  end.

(** The three discriminator values of the wire contract. *)
Definition known_tags : list value := [VStr "text"; VStr "heading"; VStr "table"].

(** ** The trace parameters of [get_schema_async] *)

(** The dictionary [_trace_params] that [ParsedFile.get_schema_async] builds
    before it calls the language model: the two defaults, updated with the
    caller's [trace_params].  A [dict] with string keys is a [gmap string V];
    the values are of any type [V], into which [of_str] puts the two default
    strings. *)
Section TraceParams.
Context {V : Type} (of_str : string -> V).

(** [x or {}] for an optional dictionary: [x] when it is truthy (present
    and not empty), the empty dictionary otherwise. *)
Definition or_empty_dict (x : option (gmap string V)) : gmap string V :=
  match x with
  | Some d => if decide (size d = 0%nat) then ∅ else d
  | None => ∅
  end.

(** [d.update(other)]: every key of [other] is set in [d] to the value it
    has in [other]; the other keys of [d] stay. *)
Definition dict_update (d other : gmap string V) : gmap string V :=
  other ∪ d.

Definition default_trace_params : gmap string V :=
  <["name" := of_str "NLP: Internal Entity Extraction"]>
    (<["user_id" := of_str "file_parser"]> ∅).

Definition schema_trace_params (trace_params : option (gmap string V))
  : gmap string V :=
  dict_update default_trace_params (or_empty_dict trace_params).
End TraceParams.

(** ** Decimal digits *)

Definition is_digit (c : Ascii.ascii) : bool :=
  let n := Ascii.nat_of_ascii c in (48 <=? n)%nat && (n <=? 57)%nat.

Fixpoint all_digits (s : string) : bool :=
  match s with
  | EmptyString => true
  | String c rest => is_digit c && all_digits rest
  end.

(** * Properties *)

(** ** Strings and lists *)

Lemma str_app_nil_r (s : string) : s +:+ "" = s.
Proof. induction s as [|c s IH]; [done|]. change (String c (s +:+ "") = String c s). by rewrite IH. Qed.

Lemma str_app_assoc (s t u : string) : (s +:+ t) +:+ u = s +:+ (t +:+ u).
Proof.
  induction s as [|c s IH]; [done|].
  change (String c ((s +:+ t) +:+ u) = String c (s +:+ (t +:+ u))).
  by rewrite IH.
Qed.

Lemma or_empty_default (x : option string) : or_empty x = default "" x.
Proof.
  destruct x as [s|]; [|done]. simpl.
  destruct (String.eqb_spec s ""); by subst.
Qed.

Lemma chain_concat {A} (ls : list (list A)) : chain ls = concat ls.
Proof. induction ls as [|l ls IH]; [done|]. simpl. by rewrite IH. Qed.

Lemma foldl_app_concat {A B} (f : B -> list A) (acc : list A) (l : list B) :
  foldl (fun acc x => acc ++ f x) acc l = acc ++ concat (f <$> l).
Proof.
  revert acc. induction l as [|x l IH]; intros acc; simpl.
  - by rewrite app_nil_r.
  - by rewrite IH, <- app_assoc.
Qed.

Lemma chain_pair {A} (l1 l2 : list A) : chain [l1; l2] = l1 ++ l2.
Proof. simpl. by rewrite app_nil_r. Qed.

Lemma enumerate_from_lookup {A} (l : list A) (start i : nat) :
  enumerate_from start l !! i = (fun x => ((start + i)%nat, x)) <$> l !! i.
Proof.
  revert start i. induction l as [|x l IH]; intros start [|i]; simpl; try done.
  - by rewrite Nat.add_0_r.
  - rewrite IH. by replace (S start + i)%nat with (start + S i)%nat by lia.
Qed.

Lemma enumerate_from_length {A} (l : list A) (start : nat) :
  length (enumerate_from start l) = length l.
Proof. revert start. induction l as [|x l IH]; intros start; simpl; [done|]. by rewrite IH. Qed.

(** ** Section merge *)

Lemma add_images (a b : SectionContent) : images (add a b) = images a ++ images b.
Proof. apply chain_pair. Qed.

Lemma add_items (a b : SectionContent) : items (add a b) = items a ++ items b.
Proof. apply chain_pair. Qed.

Lemma add_md (a b : SectionContent) :
  md (add a b) = Some (default "" (md a) +:+ default "" (md b)).
Proof. simpl. by rewrite !or_empty_default. Qed.

Lemma add_unfold (a b : SectionContent) :
  add a b =
  {| number := number a;
     text := text a +:+ text b;
     md := Some (default "" (md a) +:+ default "" (md b));
     images := images a ++ images b;
     items := items a ++ items b |}.
Proof. unfold add. by rewrite !chain_pair, !or_empty_default. Qed.

(** C1: for all sections [a] and [b], [a + b] has [a]'s number, the text
    [a.text + b.text], and as images and items the sequences of [a] followed
    by those of [b], each side in its own order: the first [len(a.images)]
    elements are [a.images] and the rest is [b.images] (likewise for items),
    so the lengths add up. *)
Theorem add_fields (a b : SectionContent) :
  number (add a b) = number a
  /\ text (add a b) = text a +:+ text b
  /\ images (add a b) = images a ++ images b
  /\ items (add a b) = items a ++ items b
  /\ take (length (images a)) (images (add a b)) = images a
  /\ drop (length (images a)) (images (add a b)) = images b
  /\ take (length (items a)) (items (add a b)) = items a
  /\ drop (length (items a)) (items (add a b)) = items b
  /\ length (images (add a b)) = (length (images a) + length (images b))%nat
  /\ length (items (add a b)) = (length (items a) + length (items b))%nat.
Proof.
  rewrite add_images, add_items.
  rewrite !take_app_length, !drop_app_length, !length_app.
  repeat split.
Qed.

(** C2: the markup of [a + b] is [a]'s markup followed by [b]'s, an absent
    markup counting as the empty string; the merged markup is always present,
    also when both operands have none. *)
Theorem add_md_present :
  (forall a b : SectionContent,
     md (add a b) = Some (default "" (md a) +:+ default "" (md b))
     /\ is_Some (md (add a b)))
  /\ (forall n1 t1 i1 it1 n2 t2 i2 it2,
        md (add (mkSection n1 t1 None i1 it1) (mkSection n2 t2 None i2 it2))
        = Some "").
Proof.
  split; [|done].
  intros a b. rewrite add_md. eauto.
Qed.

(** C8: the section merge is associative, [(a + b) + c = a + (b + c)] for
    all sections, and it is not commutative: there are sections [a] and [b]
    with [a + b] different from [b + a]. *)
Theorem add_assoc_not_comm :
  (forall a b c : SectionContent, add (add a b) c = add a (add b c))
  /\ (exists a b : SectionContent, add a b <> add b a).
Proof.
  split.
  - intros a b c. rewrite !add_unfold. simpl.
    by rewrite !str_app_assoc, !app_assoc.
  - exists (mkSection 1 "Hello " None [] []), (mkSection 2 "World" None [] []).
    intros H. by apply (f_equal number) in H.
Qed.

(** ** The wire form *)

Lemma traverse_strs (path : string) (row : list string) :
  traverse (as_str path) (map VStr row) = Ok row.
Proof. induction row as [|c row IH]; [done|]. simpl. by rewrite IH. Qed.

Lemma traverse_rows (path : string) (rows : list (list string)) :
  traverse (as_list path (as_str path))
           (map (fun row => VList (map VStr row)) rows) = Ok rows.
Proof.
  induction rows as [|row rows IH]; [done|].
  simpl. by rewrite traverse_strs, IH.
Qed.

Ltac read_fields :=
  unfold required, optional, list_to_map, tag_field; cbn [foldr uncurry fst snd];
  repeat first
    [ rewrite lookup_insert_eq
    | rewrite lookup_insert_ne by done
    | rewrite lookup_empty ];
  cbn [as_str as_int as_bool as_list bind String.eqb Ascii.eqb Bool.eqb].

(** C3: for each of the three page item variants, decoding the encoding of
    an item gives the item back; the value written under the discriminator
    field is the variant's own tag, and it is what the decoder reads to choose
    the variant. *)
Theorem decode_encode (it : PageItem) :
  decode_item (encode_item it) = Ok it
  /\ exists o, encode_item it = VObj o /\ o !! tag_field = Some (VStr (item_tag it)).
Proof.
  split.
  - destruct it as [m t|m h l|m r c p]; unfold decode_item, encode_item;
      read_fields; [done..|].
    by rewrite traverse_rows.
  - destruct it; (eexists; split; [reflexivity|]); by read_fields.
Qed.

(** C4: a payload whose discriminator field holds anything other than
    ["text"], ["heading"] or ["table"] does not decode: the decoder returns
    an error, never one of the three variants. *)
Theorem decode_unknown_tag (o : gmap string value) (tag : value) :
  o !! tag_field = Some tag ->
  tag ∉ known_tags ->
  decode_item (VObj o) = Err (InvalidTag tag).
Proof.
  intros Hlookup Hunknown. unfold decode_item. rewrite Hlookup.
  destruct tag as [|b|z|f|s|l|o']; try done.
  destruct (String.eqb_spec s "text") as [->|_].
  { exfalso. apply Hunknown. unfold known_tags. set_solver. }
  destruct (String.eqb_spec s "heading") as [->|_].
  { exfalso. apply Hunknown. unfold known_tags. set_solver. }
  destruct (String.eqb_spec s "table") as [->|_]; [|done].
  exfalso. apply Hunknown. unfold known_tags. set_solver.
Qed.

Lemma decode_unknown_tag_witness :
  decode_item
    (VObj (list_to_map [("type", VStr "image"); ("md", VStr "x"); ("text", VStr "x")]))
  = Err (InvalidTag (VStr "image")).
Proof.
  apply decode_unknown_tag.
  - vm_compute. reflexivity.
  - unfold known_tags. intros H.
    repeat (apply elem_of_cons in H as [H|H]; [discriminate H|]).
    by apply elem_of_nil in H.
Defined.

(** ** File merges *)

(** C5: [merge_all(primary, others)] is named after [primary]; its sections
    are those of [primary] followed by those of each element of [others] in
    input order, the sections themselves being the operands' own values (for
    one other file [d2]: [primary.sections] followed by [d2.sections]). *)
Theorem merge_all_sections (primary : ParsedFile) (others : list ParsedFile) :
  name (merge_all primary others) = name primary
  /\ sections (merge_all primary others)
     = sections primary ++ concat (sections <$> others)
  /\ sections (merge_all primary others)
     = foldl (fun acc other => acc ++ sections other) (sections primary) others
  /\ (forall d2, sections (merge_all primary [d2])
                 = sections primary ++ sections d2).
Proof.
  split; [done|].
  assert (Hcat : sections (merge_all primary others)
                 = sections primary ++ concat (sections <$> others)).
  { simpl. by rewrite chain_concat. }
  split; [done|]. split.
  - by rewrite Hcat, foldl_app_concat.
  - intros d2. simpl. by rewrite app_nil_r.
Qed.

(** C6: [from_parsed_files(files)] is named ["MergedFile"] whatever the
    inputs are called, its sections are the inputs' sections one input after
    the other in input order, and on the empty sequence it is the file named
    ["MergedFile"] with no sections. *)
Theorem from_parsed_files_sections :
  (forall files : list ParsedFile,
     name (from_parsed_files files) = "MergedFile"
     /\ sections (from_parsed_files files) = concat (sections <$> files)
     /\ sections (from_parsed_files files)
        = foldl (fun acc file => acc ++ sections file) [] files)
  /\ from_parsed_files [] = {| name := "MergedFile"; sections := [] |}.
Proof.
  split; [|done]. intros files. split; [done|].
  assert (Hcat : sections (from_parsed_files files) = concat (sections <$> files)).
  { simpl. by rewrite chain_concat. }
  split; [done|]. by rewrite Hcat, foldl_app_concat.
Qed.

(** The scenario of two one-section files, both sections numbered 1. *)
Example merge_all_hello_world :
  merge_all (mkParsedFile "f1" [mkSection 1 "Hello " None [] []])
            [mkParsedFile "f2" [mkSection 1 "World" None [] []]]
  = mkParsedFile "f1" [mkSection 1 "Hello " None [] []; mkSection 1 "World" None [] []].
Proof. reflexivity. Qed.

Example add_hello_world :
  add (mkSection 1 "Section 1 Text" (Some "# Section 1") [] [])
      (mkSection 1 "Section 2 Text" (Some "# Section 2") [] [])
  = mkSection 1 "Section 1 TextSection 2 Text" (Some "# Section 1# Section 2") [] [].
Proof. reflexivity. Qed.

(** ** The markup view *)

(** C7: the [md] view is the sections' markups, in section order, joined by
    one line feed, a section without markup contributing the empty string
    and not the text [None]; markups ["# A"] and ["# B"] give ["# A\n# B"]. *)
Theorem file_md_join :
  (forall f : ParsedFile,
     file_md f = str_join LF ((fun sec => default "" (md sec)) <$> sections f))
  /\ (forall nm n1 t1 i1 it1 n2 t2 i2 it2,
        file_md (mkParsedFile nm [mkSection n1 t1 (Some "# A") i1 it1;
                                  mkSection n2 t2 (Some "# B") i2 it2])
        = "# A" +:+ LF +:+ "# B")
  /\ (forall nm before after n t i it,
        file_md (mkParsedFile nm (before ++ mkSection n t None i it :: after))
        = file_md (mkParsedFile nm (before ++ mkSection n t (Some "") i it :: after)))
  /\ (forall nm n t i it, file_md (mkParsedFile nm [mkSection n t None i it]) = "").
Proof.
  split; [|split; [done|split; [|done]]].
  - intros f. unfold file_md. f_equal.
    apply map_ext. intros sec. apply or_empty_default.
  - intros nm before after n t i it. unfold file_md. simpl.
    by rewrite !map_app.
Qed.

(** ** The view for language models *)

Lemma section_tags_lookup (f : ParsedFile) (i : nat) :
  section_tags f !! i
  = (fun sec => "<section_" +:+ pretty i +:+ "> " +:+ format_opt_str (md sec)
                  +:+ " </section_" +:+ pretty i +:+ ">") <$> sections f !! i.
Proof.
  unfold section_tags, enumerate.
  change (map ?g ?l !! i) with ((g <$> l) !! i).
  rewrite list_lookup_fmap, enumerate_from_lookup.
  by destruct (sections f !! i).
Qed.

(** C10: in [llm_described_text] the section at zero-based position [i] of
    the sections sequence is rendered as its markup between [<section_i>] and
    [</section_i>], whatever its [number] is, the rendered sections being
    joined by one space inside the [<file>] frame; a section without markup
    is rendered with the text [None] between its tags, where the [md] view
    has the empty string. *)
Theorem llm_described_text_tags :
  (forall (f : ParsedFile) (i : nat) (sec : SectionContent),
     sections f !! i = Some sec ->
     section_tags f !! i
     = Some ("<section_" +:+ pretty i +:+ "> "
               +:+ match md sec with Some m => m | None => "None" end
               +:+ " </section_" +:+ pretty i +:+ ">"))
  /\ (forall f : ParsedFile,
        length (section_tags f) = length (sections f)
        /\ llm_described_text f
           = "<file>" +:+ LF +:+ LF +:+ "**name:** " +:+ name f +:+ " " +:+ LF
               +:+ "**sections:** " +:+ str_join " " (section_tags f)
               +:+ LF +:+ LF +:+ "</file>")
  /\ (forall nm n t i it,
        llm_described_text (mkParsedFile nm [mkSection n t None i it])
        = "<file>" +:+ LF +:+ LF +:+ "**name:** " +:+ nm +:+ " " +:+ LF
            +:+ "**sections:** <section_0> None </section_0>"
            +:+ LF +:+ LF +:+ "</file>"
        /\ file_md (mkParsedFile nm [mkSection n t None i it]) = "").
Proof.
  split; [|split].
  - intros f i sec Hsec. by rewrite section_tags_lookup, Hsec.
  - intros f. split; [|done].
    unfold section_tags, enumerate.
    by rewrite length_map, enumerate_from_length.
  - done.
Qed.

Lemma llm_described_text_tags_witness :
  section_tags
    (mkParsedFile "f" [mkSection 7 "a" (Some "# A") [] []; mkSection 7 "b" None [] []])
    !! 1%nat
  = Some "<section_1> None </section_1>".
Proof.
  exact (proj1 llm_described_text_tags
           (mkParsedFile "f" [mkSection 7 "a" (Some "# A") [] []; mkSection 7 "b" None [] []])
           1%nat (mkSection 7 "b" None [] []) eq_refl).
Defined.

(** ** Image dimensions *)

(** An image with a negative height is a value of the struct, and it breaks
    the dimension predicate. *)
Lemma negative_height_image_not_ok :
  height negative_height_image = Some minus_one
  /\ float_nonneg minus_one = false
  /\ dims_ok negative_height_image = false.
Proof. repeat split. Qed.

(** C9, as the code has it: an image keeps the height and the width it is
    built with, whatever their sign; the operations that carry images keep
    the dimension predicate: if it holds of every image of the operands, it
    holds of every image of the section merge, of [merge_all] and of
    [from_parsed_files]. *)
Theorem merges_preserve_dims :
  (forall c o h w n al,
     height (mkImage c o h w n al) = h /\ width (mkImage c o h w n al) = w)
  /\ (forall a b : SectionContent,
        section_dims_ok a -> section_dims_ok b -> section_dims_ok (add a b))
  /\ (forall (primary : ParsedFile) (others : list ParsedFile),
        file_dims_ok primary -> Forall file_dims_ok others ->
        file_dims_ok (merge_all primary others))
  /\ (forall files : list ParsedFile,
        Forall file_dims_ok files -> file_dims_ok (from_parsed_files files)).
Proof.
  assert (Hcat : forall fs : list ParsedFile,
            Forall file_dims_ok fs -> Forall section_dims_ok (concat (sections <$> fs))).
  { intros fs Hfs. apply Forall_concat, Forall_fmap.
    eapply Forall_impl; [exact Hfs|]. by intros f Hf. }
  split; [done|]. split; [|split].
  - intros a b Ha Hb. unfold section_dims_ok. rewrite add_images.
    by apply Forall_app.
  - intros primary others Hp Ho. unfold file_dims_ok. simpl.
    rewrite chain_concat. apply Forall_app. split; [done|]. by apply Hcat.
  - intros files Hfs. unfold file_dims_ok. simpl.
    rewrite chain_concat. by apply Hcat.
Qed.

Lemma merges_preserve_dims_witness :
  section_dims_ok
    (add (mkSection 1 "a" None [mkImage [] None (Some (S754_zero false)) None None None] [])
         (mkSection 2 "b" None [] [])).
Proof.
  apply (proj1 (proj2 merges_preserve_dims)).
  - by repeat constructor.
  - by repeat constructor.
Defined.

(** * Further properties of the operations *)

(** ** Joining and chaining *)

Lemma str_join_cons (sep x : string) (l : list string) :
  l <> [] -> str_join sep (x :: l) = x +:+ sep +:+ str_join sep l.
Proof. by destruct l. Qed.

Lemma str_join_app (sep : string) (l1 l2 : list string) :
  l1 <> [] -> l2 <> [] ->
  str_join sep (l1 ++ l2) = str_join sep l1 +:+ sep +:+ str_join sep l2.
Proof.
  intros H1 H2. induction l1 as [|x l1 IH]; [done|].
  destruct l1 as [|y l1].
  - simpl app. by rewrite str_join_cons.
  - change ((x :: y :: l1) ++ l2) with (x :: (y :: l1) ++ l2).
    rewrite !str_join_cons by done.
    rewrite IH by done. by rewrite !str_app_assoc.
Qed.

Lemma chain_app {A} (ls1 ls2 : list (list A)) :
  chain (ls1 ++ ls2) = chain ls1 ++ chain ls2.
Proof.
  induction ls1 as [|l ls1 IH]; [done|].
  simpl. by rewrite IH, app_assoc.
Qed.

Lemma chain_length {A} (ls : list (list A)) :
  length (chain ls) = sum_list (length <$> ls).
Proof.
  induction ls as [|l ls IH]; [done|].
  simpl. by rewrite length_app, IH.
Qed.

Lemma chain_lookup {A} (ls : list (list A)) (k j : nat) (l : list A) (x : A) :
  ls !! k = Some l -> l !! j = Some x ->
  chain ls !! (sum_list (length <$> take k ls) + j)%nat = Some x.
Proof.
  revert k. induction ls as [|l0 ls IH]; intros [|k] Hk Hj; simplify_eq/=.
  - by apply lookup_app_l_Some.
  - rewrite <- Nat.add_assoc, lookup_app_r by lia.
    replace (length l0 + (sum_list (length <$> take k ls) + j) - length l0)%nat
      with (sum_list (length <$> take k ls) + j)%nat by lia.
    by apply IH.
Qed.

Lemma elem_of_chain {A} (ls : list (list A)) (x : A) :
  x ∈ chain ls <-> exists l, l ∈ ls /\ x ∈ l.
Proof.
  induction ls as [|l0 ls IH]; simpl.
  - split; [by intros ?%elem_of_nil|]. by intros (l & ?%elem_of_nil & _).
  - rewrite elem_of_app, IH. split.
    + intros [Hx|(l & Hl & Hx)].
      * exists l0. split; [by left|done].
      * exists l. split; [by right|done].
    + intros (l & Hl & Hx). apply elem_of_cons in Hl as [->|Hl]; [by left|].
      right. by exists l.
Qed.

Lemma merge_all_unfold (p : ParsedFile) (os : list ParsedFile) :
  sections (merge_all p os) = sections p ++ chain (map sections os).
Proof. done. Qed.

(** ** Section identifiers *)

(** X1: two sections have the same identifier exactly when they have the
    same number, whatever else they hold. *)
Theorem get_id_eq_iff (a b : SectionContent) :
  get_id a = get_id b <-> number a = number b.
Proof.
  unfold get_id. split.
  - intros H. apply (inj (String.app "page_")) in H. by apply (inj pretty) in H.
  - by intros ->.
Qed.

(** X2: a merged section has the identifier of its left operand; it has the
    identifier of its right operand only if both operands have the same
    number. *)
Theorem get_id_add (a b : SectionContent) :
  get_id (add a b) = get_id a
  /\ (get_id (add a b) = get_id b <-> number a = number b).
Proof.
  split; [done|]. unfold get_id. simpl. split.
  - intros H. apply (inj (String.app "page_")) in H. by apply (inj pretty) in H.
  - by intros ->.
Qed.

(** ** Neutral sections *)



(** X4: the merge has no neutral element on either side: whatever section
    [e] is, some section is changed by merging [e] on its right, and some
    section is changed by merging [e] on its left. *)
Theorem add_no_neutral (e : SectionContent) :
  (exists a, add a e <> a) /\ (exists a, add e a <> a).
Proof.
  split.
  - exists (mkSection 0 "" None [] []). intros H.
    by apply (f_equal md) in H.
  - exists (mkSection (number e + 1) "" None [] []). intros H.
    apply (f_equal number) in H. simpl in H. lia.
Qed.

(** ** Composition of the file merges *)

(** X5: merging in two steps is merging once with the two sequences put
    end to end. *)
Theorem merge_all_merge_all (p : ParsedFile) (xs ys : list ParsedFile) :
  merge_all (merge_all p xs) ys = merge_all p (xs ++ ys).
Proof.
  unfold merge_all at 1 3. f_equal. simpl.
  by rewrite map_app, chain_app, app_assoc.
Qed.


(** X7: [from_parsed_files] of a first file and others has the sections of
    [merge_all] on them but the name ["MergedFile"]: the two results are
    equal exactly when the first file is itself named ["MergedFile"]. *)
Theorem from_parsed_files_cons (p : ParsedFile) (os : list ParsedFile) :
  sections (from_parsed_files (p :: os)) = sections (merge_all p os)
  /\ (from_parsed_files (p :: os) = merge_all p os <-> name p = "MergedFile").
Proof.
  split; [done|]. split.
  - intros H. by apply (f_equal name) in H.
  - intros H. unfold from_parsed_files, merge_all. by rewrite H.
Qed.

(** X8: [from_parsed_files] flattens: on two sequences put end to end it is
    the merge of the result for the first with the files of the second, and
    also the result for the two partial results. *)
Theorem from_parsed_files_app (xs ys : list ParsedFile) :
  from_parsed_files (xs ++ ys) = merge_all (from_parsed_files xs) ys
  /\ from_parsed_files (xs ++ ys)
     = from_parsed_files [from_parsed_files xs; from_parsed_files ys].
Proof.
  unfold from_parsed_files, merge_all. simpl.
  by rewrite map_app, chain_app, app_nil_r.
Qed.

(** X9: the merged file has as many sections as the operands together:
    none is dropped, none is merged with another. *)
Theorem merge_all_length (p : ParsedFile) (os : list ParsedFile) :
  length (sections (merge_all p os))
  = (length (sections p) + sum_list ((fun o => length (sections o)) <$> os))%nat.
Proof.
  rewrite merge_all_unfold, length_app, chain_length.
  change (map sections os) with (sections <$> os).
  by rewrite <- list_fmap_compose.
Qed.

(** X10: section [j] of the [k]-th other file is, in the merged file, at
    the position found by counting the sections of the primary file and of
    the other files before the [k]-th, then [j]. *)
Theorem merge_all_lookup (p : ParsedFile) (os : list ParsedFile)
    (k j : nat) (o : ParsedFile) (s : SectionContent) :
  os !! k = Some o -> sections o !! j = Some s ->
  sections (merge_all p os)
    !! (length (sections p)
        + sum_list ((fun o => length (sections o)) <$> take k os) + j)%nat
  = Some s.
Proof.
  intros Hk Hj. rewrite merge_all_unfold.
  rewrite <- Nat.add_assoc, lookup_app_r by lia.
  replace (length (sections p)
           + (sum_list ((fun o => length (sections o)) <$> take k os) + j)
           - length (sections p))%nat
    with (sum_list ((fun o => length (sections o)) <$> take k os) + j)%nat by lia.
  replace ((fun o => length (sections o)) <$> take k os)
    with (length <$> take k (map sections os)).
  - apply chain_lookup with (l := sections o); [|done].
    change (map sections os) with (sections <$> os).
    by rewrite list_lookup_fmap, Hk.
  - change (map sections os) with (sections <$> os).
    by rewrite <- fmap_take, <- list_fmap_compose.
Qed.

Lemma merge_all_lookup_witness :
  sections
    (merge_all (mkParsedFile "a" [mkSection 1 "a1" None [] []])
       [mkParsedFile "b" [mkSection 1 "b1" None [] []; mkSection 2 "b2" None [] []];
        mkParsedFile "c" [mkSection 1 "c1" None [] []]])
    !! (1 + 2 + 0)%nat
  = Some (mkSection 1 "c1" None [] []).
Proof.
  exact (merge_all_lookup (mkParsedFile "a" [mkSection 1 "a1" None [] []])
    [mkParsedFile "b" [mkSection 1 "b1" None [] []; mkSection 2 "b2" None [] []];
     mkParsedFile "c" [mkSection 1 "c1" None [] []]]
    1 0 (mkParsedFile "c" [mkSection 1 "c1" None [] []])
    (mkSection 1 "c1" None [] []) eq_refl eq_refl).
Defined.

(** X11: a section is in the merged file exactly when it is in the primary
    file or in one of the other files: the merge invents no section and
    loses none. *)
Theorem merge_all_elem_of (p : ParsedFile) (os : list ParsedFile)
    (s : SectionContent) :
  s ∈ sections (merge_all p os)
  <-> s ∈ sections p \/ exists o, o ∈ os /\ s ∈ sections o.
Proof.
  rewrite merge_all_unfold, elem_of_app, elem_of_chain.
  change (map sections os) with (sections <$> os).
  split; (intros [?|H]; [by left|right]).
  - destruct H as (l & Hl & Hs). apply list_elem_of_fmap in Hl as (o & -> & Ho).
    by exists o.
  - destruct H as (o & Ho & Hs). exists (sections o).
    split; [|done]. apply list_elem_of_fmap. by exists o.
Qed.

(** ** The markup view of merged files and sections *)

Lemma file_md_unfold (f : ParsedFile) :
  file_md f = str_join LF ((fun sec => or_empty (md sec)) <$> sections f).
Proof. done. Qed.

(** X12: when the primary file and the other files each bring at least one
    section, the markup of the merged file is the markup of the primary
    file, one line feed, and the markup of the other files merged on their
    own. *)
Theorem file_md_merge_all (p : ParsedFile) (os : list ParsedFile) :
  sections p <> [] -> sections (from_parsed_files os) <> [] ->
  file_md (merge_all p os)
  = file_md p +:+ LF +:+ file_md (from_parsed_files os).
Proof.
  intros Hp Ho. rewrite !file_md_unfold, merge_all_unfold.
  change (sections (from_parsed_files os)) with (chain (map sections os)) in *.
  rewrite fmap_app. apply str_join_app.
  - by destruct (sections p).
  - by destruct (chain (map sections os)).
Qed.

Lemma file_md_merge_all_witness :
  file_md (merge_all (mkParsedFile "a" [mkSection 1 "" (Some "# A") [] []])
                     [mkParsedFile "b" [mkSection 1 "" (Some "# B") [] []]])
  = file_md (mkParsedFile "a" [mkSection 1 "" (Some "# A") [] []]) +:+ LF
    +:+ file_md (from_parsed_files [mkParsedFile "b" [mkSection 1 "" (Some "# B") [] []]]).
Proof.
  apply file_md_merge_all; discriminate.
Defined.

(** X13: a side without sections leaves no trace in the markup of a merge,
    not even a line feed: with a primary file without sections the markup is
    that of the other files, and with other files without sections it is
    that of the primary file. *)
Theorem file_md_merge_all_empty (p : ParsedFile) (os : list ParsedFile) :
  (sections p = [] -> file_md (merge_all p os) = file_md (from_parsed_files os))
  /\ (sections (from_parsed_files os) = [] -> file_md (merge_all p os) = file_md p).
Proof.
  rewrite !file_md_unfold, merge_all_unfold.
  change (sections (from_parsed_files os)) with (chain (map sections os)).
  split; intros ->; [done|]. by rewrite app_nil_r.
Qed.

Lemma file_md_merge_all_empty_witness :
  file_md (merge_all (mkParsedFile "a" [])
                     [mkParsedFile "b" [mkSection 1 "" (Some "# B") [] []]])
  = file_md (from_parsed_files [mkParsedFile "b" [mkSection 1 "" (Some "# B") [] []]]).
Proof.
  exact (proj1 (file_md_merge_all_empty (mkParsedFile "a" [])
           [mkParsedFile "b" [mkSection 1 "" (Some "# B") [] []]]) eq_refl).
Defined.

(** X14: in the markup view, two sections kept apart are separated by a
    line feed, and the same two sections merged into one are not: the view
    of the merged section is the two markups end to end. *)
Theorem file_md_add (nm : string) (a b : SectionContent) :
  file_md (mkParsedFile nm [add a b])
  = file_md (mkParsedFile nm [a]) +:+ file_md (mkParsedFile nm [b])
  /\ file_md (mkParsedFile nm [a; b])
     = file_md (mkParsedFile nm [a]) +:+ LF +:+ file_md (mkParsedFile nm [b]).
Proof.
  split; [|done]. unfold file_md. cbn [sections map str_join].
  by rewrite add_md, !or_empty_default.
Qed.

(** ** Positional tags *)

Lemma pretty_N_char_digit (x : N) : is_digit (pretty_N_char x) = true.
Proof. unfold pretty_N_char. by repeat case_match. Qed.

Lemma all_digits_app (s t : string) :
  all_digits s = true -> all_digits t = true -> all_digits (s +:+ t) = true.
Proof.
  intros Hs Ht. induction s as [|c s IH]; [done|].
  change (String c s +:+ t) with (String c (s +:+ t)).
  simpl in *. apply andb_true_iff in Hs as [-> Hs]. by apply IH.
Qed.

Lemma pretty_N_go_digits (x : N) :
  exists d, all_digits d = true /\ forall s, pretty_N_go x s = d +:+ s.
Proof.
  induction (N.lt_wf_0 x) as [x _ IH].
  destruct (decide (x = 0%N)) as [->|Hx].
  - by exists "".
  - destruct (IH (x `div` 10)%N) as (d & Hd & Hgo).
    { apply N.div_lt; lia. }
    exists (d +:+ String (pretty_N_char (x `mod` 10)) "").
    split.
    + apply all_digits_app; [done|]. simpl. by rewrite pretty_N_char_digit.
    + intros s. rewrite pretty_N_go_step by lia.
      by rewrite Hgo, str_app_assoc.
Qed.

Lemma pretty_nat_digits (n : nat) : all_digits (pretty n) = true.
Proof.
  unfold pretty, pretty_nat, pretty, pretty_N.
  case_decide; [done|].
  destruct (pretty_N_go_digits (N.of_nat n)) as (d & Hd & ->).
  by rewrite str_app_nil_r.
Qed.

Lemma digits_prefix_inj (d1 d2 : string) (c1 c2 : Ascii.ascii) (s1 s2 : string) :
  all_digits d1 = true -> all_digits d2 = true ->
  is_digit c1 = false -> is_digit c2 = false ->
  d1 +:+ String c1 s1 = d2 +:+ String c2 s2 -> d1 = d2.
Proof.
  intros H1 H2 Hc1 Hc2. revert d2 H2.
  induction d1 as [|x d1 IH]; intros [|y d2] H2 Heq; [done|..].
  - change (String c1 s1 = String y (d2 +:+ String c2 s2)) in Heq.
    simpl in H2. apply andb_true_iff in H2 as [Hy _]. congruence.
  - change (String x (d1 +:+ String c1 s1) = String c2 s2) in Heq.
    simpl in H1. apply andb_true_iff in H1 as [Hx _]. congruence.
  - change (String x (d1 +:+ String c1 s1) = String y (d2 +:+ String c2 s2)) in Heq.
    simpl in H1, H2.
    apply andb_true_iff in H1 as [_ H1]. apply andb_true_iff in H2 as [_ H2].
    injection Heq as -> Heq. f_equal. by apply IH.
Qed.

Lemma section_tags_lookup_inj (f : ParsedFile) (i j : nat) (t : string) :
  section_tags f !! i = Some t -> section_tags f !! j = Some t -> i = j.
Proof.
  rewrite !section_tags_lookup. intros Hi Hj.
  apply fmap_Some in Hi as (si & _ & ->). apply fmap_Some in Hj as (sj & _ & Heq).
  apply (inj (String.app "<section_")) in Heq.
  apply (inj pretty).
  eapply (digits_prefix_inj (pretty i) (pretty j)
            (Ascii.ascii_of_nat 62) (Ascii.ascii_of_nat 62));
    [apply pretty_nat_digits..|done|done|exact Heq].
Qed.

(** X15: the rendered sections of a file are pairwise different, also when
    the sections themselves are equal: no rendered text occurs at two
    positions. *)
Theorem section_tags_NoDup (f : ParsedFile) : NoDup (section_tags f).
Proof.
  apply NoDup_alt. intros i j t. apply section_tags_lookup_inj.
Qed.

(** X16: after a merge the sections of the other file are tagged by their
    position in the merged file: section [j] of the other file is rendered
    under the tag numbered by the primary file's section count plus [j]. *)
Theorem section_tags_merge_all (p o : ParsedFile) (j : nat) (s : SectionContent) :
  sections o !! j = Some s ->
  section_tags (merge_all p [o]) !! (length (sections p) + j)%nat
  = Some ("<section_" +:+ pretty (length (sections p) + j)%nat +:+ "> "
            +:+ format_opt_str (md s)
            +:+ " </section_" +:+ pretty (length (sections p) + j)%nat +:+ ">").
Proof.
  intros Hj. rewrite section_tags_lookup, merge_all_unfold. simpl.
  rewrite app_nil_r, lookup_app_r by lia.
  replace (length (sections p) + j - length (sections p))%nat with j by lia.
  by rewrite Hj.
Qed.

Lemma section_tags_merge_all_witness :
  section_tags
    (merge_all (mkParsedFile "a" [mkSection 1 "" (Some "# A") [] []])
               [mkParsedFile "b" [mkSection 1 "" (Some "# B") [] []]])
    !! (1 + 0)%nat
  = Some "<section_1> # B </section_1>".
Proof.
  exact (section_tags_merge_all (mkParsedFile "a" [mkSection 1 "" (Some "# A") [] []])
           (mkParsedFile "b" [mkSection 1 "" (Some "# B") [] []])
           0 (mkSection 1 "" (Some "# B") [] []) eq_refl).
Defined.

(** ** Trace parameters *)

Section TraceParamsFacts.
Context {V : Type} (of_str : string -> V).

Lemma or_empty_dict_lookup (tp : option (gmap string V)) (k : string) :
  or_empty_dict tp !! k = tp ≫= (.!! k).
Proof.
  destruct tp as [d|]; simpl; [|done].
  case_decide as Hsize; [|done].
  apply map_size_empty_inv in Hsize as ->. done.
Qed.

(** X17: in the trace parameters sent with the schema request, a key the
    caller supplies has the caller's value, any other key has its default,
    the keys [name] and [user_id] are always present, and without caller
    parameters (or with empty ones) the result is the defaults. *)
Theorem schema_trace_params_lookup (tp : option (gmap string V)) (k : string) :
  schema_trace_params of_str tp !! k
  = match tp ≫= (.!! k) with
    | Some v => Some v
    | None => default_trace_params of_str !! k
    end
  /\ is_Some (schema_trace_params of_str tp !! "name")
  /\ is_Some (schema_trace_params of_str tp !! "user_id")
  /\ schema_trace_params of_str None = default_trace_params of_str
  /\ schema_trace_params of_str (Some ∅) = default_trace_params of_str.
Proof.
  assert (Hlookup : forall k',
    schema_trace_params of_str tp !! k'
    = match tp ≫= (.!! k') with
      | Some v => Some v
      | None => default_trace_params of_str !! k'
      end).
  { intros k'. unfold schema_trace_params, dict_update.
    rewrite lookup_union, or_empty_dict_lookup.
    destruct (tp ≫= (.!! k')); [|by rewrite (left_id None _)].
    by destruct (default_trace_params of_str !! k'). }
  split; [done|]. split; [|split; [|split]].
  - rewrite Hlookup. destruct (tp ≫= _); [by eexists|].
    unfold default_trace_params. rewrite lookup_insert_eq. by eexists.
  - rewrite Hlookup. destruct (tp ≫= _); [by eexists|].
    unfold default_trace_params.
    rewrite lookup_insert_ne by done. rewrite lookup_insert_eq. by eexists.
  - unfold schema_trace_params, dict_update. simpl. by rewrite (left_id ∅ _).
  - unfold schema_trace_params, dict_update. simpl.
    rewrite map_size_empty. simpl. by rewrite (left_id ∅ _).
Qed.
End TraceParamsFacts.
